(** * Lucacez/personal: the Info page, the Comment widget and the blog documents

    A shallow embedding of [src/pages/info.js], of the Giscus comment
    component ([src/unnamed/part_000]) and of the front matter of
    [src/data/blog/optimizations-contracts.mdx].

    The two components are React function components.  A function component
    is modelled as a function from the props it is called with and from the
    ambient state its hooks read to a completion: either the element tree it
    returns or the exception it throws. *)

From Stdlib Require Import ZArith Ascii String.
From stdpp Require Import base option gmap strings list fin_maps.

Set Warnings "-register-all".

Local Open Scope string_scope.
Local Open Scope Z_scope.

(** ** The fragment of JavaScript the components use *)

Module Js.

(** The primitive values a hook can hand out as [colorMode]: undefined,
    null, booleans and strings.  Every statement below about a mode is a
    statement about these values.  Numbers and symbols are left out, and so
    are objects: turning an object into a property key runs the object's own
    conversion code, which may produce any key, "light" included, or throw. *)
Inductive prim :=
| PUndefined
| PNull
| PBool (b : bool)
| PStr (s : string).

(** Values that occur as JSX attribute values and as results of a property
    read.  [VInherited k] is the member that an ordinary object inherits
    from [Object.prototype] under the name [k]. *)
Inductive value :=
| VUndefined
| VStr (s : string)
| VNum (n : Z)
| VInherited (k : string).

#[global] Instance prim_eq_dec : EqDecision prim.
Proof. solve_decision. Defined.

#[global] Instance value_eq_dec : EqDecision value.
Proof. solve_decision. Defined.

Inductive error :=
| TypeError (msg : string).

(** Result of running a function body. *)
Inductive completion (A : Type) :=
| Normal (a : A)
| Throw (e : error).
Arguments Normal {A} a.
Arguments Throw {A} e.

(** Sequencing: an exception skips the rest of the body. *)
#[global] Instance completion_ret : MRet completion := fun A a => Normal a.

#[global] Instance completion_bind : MBind completion := fun A B k c =>
  match c with
  | Normal a => k a
  | Throw e => Throw e
  end.

(** ToPropertyKey on the primitives of [prim], where it neither runs user
    code nor throws: [o[undefined]] reads the key "undefined". *)
Definition to_property_key (p : prim) : string :=
  match p with
  | PUndefined => "undefined"
  | PNull => "null"
  | PBool true => "true"
  | PBool false => "false"
  | PStr s => s
  end.

(** Own and accessor property names of [Object.prototype]. *)
Definition object_prototype_keys : list string :=
  [ "constructor"; "hasOwnProperty"; "isPrototypeOf"; "propertyIsEnumerable";
    "toLocaleString"; "toString"; "valueOf"; "__proto__";
    "__defineGetter__"; "__defineSetter__";
    "__lookupGetter__"; "__lookupSetter__" ].

(** [o[k]] for an object literal [o]: own properties first, then the
    prototype, then [undefined]. *)
Definition get (o : gmap string value) (k : string) : value :=
  match o !! k with
  | Some v => v
  | None =>
      if bool_decide (k ∈ object_prototype_keys) then VInherited k
      else VUndefined
  end.

Definition is_string (v : value) : bool :=
  match v with
  | VStr _ => true
  | _ => false
  end.

End Js.

Import Js.

(** ** Element trees *)

(** What a JSX expression evaluates to: a text child or an element with its
    type, its props object and its children, in source order. *)
Inductive node :=
| Text (s : string)
| Elem (tag : string) (props : gmap string value) (children : list node).

Definition node_tag (n : node) : option string :=
  match n with
  | Text _ => None
  | Elem t _ _ => Some t
  end.

Definition node_props (n : node) : gmap string value :=
  match n with
  | Text _ => ∅
  | Elem _ ps _ => ps
  end.

Definition node_children (n : node) : list node :=
  match n with
  | Text _ => []
  | Elem _ _ cs => cs
  end.


(** First element, in document order, whose type is [t]. *)
Fixpoint find_tag (t : string) (n : node) : option node :=
  match n with
  | Text _ => None
  | Elem t' _ cs =>
      if bool_decide (t = t') then Some n
      else
        (fix go (l : list node) : option node :=
           match l with
           | [] => None
           | c :: l' =>
               match find_tag t c with
               | Some r => Some r
               | None => go l'
               end
           end) cs
  end.


(** ** Ambient state and components *)

(** The object [useColorMode()] returns, as far as it is read. *)
Record context := { colorMode : prim }.

(** What the hooks see.  The hook is imported, so what its call evaluates
    to is an input of the component: [useColorMode] is [None] when the call
    evaluates to [undefined] or [null], and the context object otherwise. *)
Record ambient := { useColorMode : option context }.

Definition component : Type := gmap string value -> ambient -> completion node.

(** [const { colorMode } = v]: destructuring a nullish value throws. *)
Definition destructure (v : option context) : completion context :=
  match v with
  | Some ctx => Normal ctx
  | None => Throw (TypeError "Cannot destructure property 'colorMode'")
  end.

(** ** src/pages/info.js *)

Definition colorSecondary : gmap string value :=
  {[ "light" := VStr "gray.700"; "dark" := VStr "gray.400" ]}.

Definition Info : component := fun _ amb =>
  ctx ← destructure (useColorMode amb);
  Normal
    (Elem "Container" ∅
       [ Elem "Head" ∅ [ Elem "title" ∅ [ Text "Info - Luca Cespedes" ] ];
         Elem "Stack"
           {[ "as" := VStr "main";
              "spacing" := VNum 8;
              "justifyContent" := VStr "center";
              "alignItems" := VStr "flex-start";
              "m" := VStr "0 auto 4rem auto";
              "maxWidth" := VStr "700px";
              "px" := VNum 2 ]}
           [ Elem "Flex"
               {[ "flexDirection" := VStr "column";
                  "justifyContent" := VStr "flex-start";
                  "alignItems" := VStr "flex-start";
                  "maxWidth" := VStr "700px" ]}
               [ Elem "Heading" {[ "mb" := VNum 2 ]}
                   [ Text "Hi, I'm Luca Cespedes" ];
                 Elem "Text"
                   {[ "color" :=
                        get colorSecondary (to_property_key (colorMode ctx)) ]}
                   [ Text "I am a Smart Contract developer and blockchain enthusiast.";
                     Elem "br" ∅ [];
                     Text "In this blog I will be uploading posts about all this, not only to share it with you, but to help me to have a place to come to when I forget some things 😁.";
                     Elem "br" ∅ [];
                     Text "All comments on the posts are welcome, and in fact if you find any mistakes, I would appreciate if you mention them to correct them. " ] ] ] ]).

(** The [color] prop of the page's [Text] element. *)
Definition text_color (n : node) : option value :=
  e ← find_tag "Text" n; node_props e !! "color".

(** ** src/unnamed/part_000: the Giscus comment widget *)

Definition Comment : component := fun _ _ =>
  Normal
    (Elem "Giscus"
       {[ "repo" := VStr "melvnl/melvinliu.com";
          "repoId" := VStr "R_kgDOHk-dUg";
          "category" := VStr "General";
          "categoryId" := VStr "DIC_kwDOHk-dUs4CP-Ao";
          "mapping" := VStr "pathname";
          "reactionsEnabled" := VStr "0";
          "emitMetadata" := VStr "0";
          "theme" := VStr "dark" ]}
       []).

(** The name under which this site's own repository is published; the
    widget's [repo] prop is compared with it. *)
Definition site_repository : string := "Lucacez/personal".


(** Ambient states used as sample inputs. *)
Definition light_mode : ambient :=
  {| useColorMode := Some {| colorMode := PStr "light" |} |}.

Definition dark_mode : ambient :=
  {| useColorMode := Some {| colorMode := PStr "dark" |} |}.

Definition sepia_mode : ambient :=
  {| useColorMode := Some {| colorMode := PStr "sepia" |} |}.

Definition toString_mode : ambient :=
  {| useColorMode := Some {| colorMode := PStr "toString" |} |}.

Definition nullish_hook : ambient := {| useColorMode := None |}.

(** ** src/data/blog: front matter *)

Module FrontMatter.

Record header := { title : string; publishedAt : string; summary : string }.

(** Modelled from the spec: the front-matter reader, which belongs to the
    rendering pipeline and is not in the source tree.  A document is a list
    of lines; the header is the block between a first line [---] and the
    next line [---], one [key: value] field per line, a value optionally
    wrapped in single quotes; the body is every line after the block. *)
Definition split_field (l : string) : option (string * string) :=
  match String.index 0 ": " l with
  | Some i =>
      Some (String.substring 0 i l,
            String.substring (i + 2) (String.length l - (i + 2)) l)
  | None => None
  end.

Definition unquote (v : string) : string :=
  let n := String.length v in
  if (2 <=? n)%nat
     && bool_decide (String.get 0 v = Some "'"%char)
     && bool_decide (String.get (n - 1) v = Some "'"%char)
  then String.substring 1 (n - 2) v
  else v.

Fixpoint parse_fields (ls : list string) (acc : gmap string string)
  : option (gmap string string * list string) :=
  match ls with
  | [] => None
  | l :: rest =>
      if bool_decide (l = "---") then Some (acc, rest)
      else
        match split_field l with
        | Some (k, v) => parse_fields rest (<[k := unquote v]> acc)
        | None => None
        end
  end.

(** Modelled from the spec: the pipeline's parse of a document into the
    header schema (title, publishedAt, summary) and the body; a document
    without a header block, or with one of the three fields missing, does
    not parse. *)
Definition parse (doc : list string) : option (header * list string) :=
  match doc with
  | first :: rest =>
      if bool_decide (first = "---") then
        r ← parse_fields rest ∅;
        t ← r.1 !! "title";
        p ← r.1 !! "publishedAt";
        s ← r.1 !! "summary";
        Some ({| title := t; publishedAt := p; summary := s |}, r.2)
      else None
  | [] => None
  end.

(** Modelled from the spec: a valid date string is a calendar date
    [YYYY-MM-DD] of the proleptic Gregorian calendar. *)
Definition digit (c : ascii) : option Z :=
  let n := Z.of_N (Ascii.N_of_ascii c) in
  if (48 <=? n) && (n <=? 57) then Some (n - 48) else None.

Fixpoint decimal_from (acc : Z) (s : string) : option Z :=
  match s with
  | EmptyString => Some acc
  | String c s' =>
      match digit c with
      | Some d => decimal_from (10 * acc + d) s'
      | None => None
      end
  end.

Definition decimal (s : string) : option Z :=
  match s with
  | EmptyString => None
  | _ => decimal_from 0 s
  end.

Definition is_leap (y : Z) : bool :=
  (y mod 4 =? 0) && (negb (y mod 100 =? 0) || (y mod 400 =? 0)).

Definition days_in_month (y m : Z) : Z :=
  if m =? 2 then (if is_leap y then 29 else 28)
  else if (m =? 4) || (m =? 6) || (m =? 9) || (m =? 11) then 30
  else 31.

(** Modelled from the spec: the check that a publishedAt value is a valid
    date string. *)
Definition valid_date (s : string) : bool :=
  match decimal (String.substring 0 4 s),
        decimal (String.substring 5 2 s),
        decimal (String.substring 8 2 s) with
  | Some y, Some m, Some d =>
      (String.length s =? 10)%nat
      && bool_decide (String.get 4 s = Some "-"%char)
      && bool_decide (String.get 7 s = Some "-"%char)
      && (1 <=? m) && (m <=? 12)
      && (1 <=? d) && (d <=? days_in_month y m)
  | _, _, _ => false
  end.

(** Lines 1-5 of src/data/blog/optimizations-contracts.mdx. *)
Definition optimizations_contracts_front_matter : list string :=
  [ "---";
    "title: 'Optimizations Solidity Smart Contracts'";
    "publishedAt: '2022-06-29'";
    "summary: 'Post to be updated over time with recommended optimizations for Solidity.'";
    "---" ].

(** The document: its front matter, then its markdown/JSX body. *)
Definition optimizations_contracts (body : list string) : list string :=
  optimizations_contracts_front_matter ++ body.

End FrontMatter.

(** ** src/data/blog/optimizations-contracts.mdx: the Solidity listings *)

(** The fragment of Solidity ^0.8 the listings use.  Unsigned integers are
    integers of [Z] within their width; arithmetic outside an [unchecked]
    block panics on overflow, inside one it wraps.  A call that reverts
    leaves the storage it was made on as it was, so a reverted outcome
    carries no storage.  Gas is not modelled: a loop is given fuel, one unit
    per test of its condition. *)
Module Sol.

Inductive panic :=
| Overflow
| OutOfBounds.

Inductive outcome (A : Type) :=
| Done (a : A)
| Revert (p : panic)
| OutOfFuel.
Arguments Done {A} a.
Arguments Revert {A} p.
Arguments OutOfFuel {A}.

#[global] Instance outcome_ret : MRet outcome := fun A a => Done a.

#[global] Instance outcome_bind : MBind outcome := fun A B k c =>
  match c with
  | Done a => k a
  | Revert p => Revert p
  | OutOfFuel => OutOfFuel
  end.

Definition max_uint (bits : Z) : Z := 2 ^ bits - 1.

(** [x + y] on [uint<bits>], checked: Panic(0x11) past the type's maximum. *)
Definition checked_add (bits x y : Z) : outcome Z :=
  if x + y <=? max_uint bits then Done (x + y) else Revert Overflow.

(** [x + y] on [uint<bits>] in an [unchecked] block. *)
Definition unchecked_add (bits x y : Z) : Z := (x + y) mod 2 ^ bits.

(** [for (uint i = i0; cond(i); i = step(i)) { body }], for a body that does
    not assign [i]. *)
Fixpoint for_loop {S : Type} (fuel : nat) (i : Z) (cond : Z -> bool)
    (step : Z -> outcome Z) (body : Z -> S -> outcome S) (s : S) : outcome S :=
  match fuel with
  | O => OutOfFuel
  | Datatypes.S fuel' =>
      if cond i then
        s' ← body i s;
        i' ← step i;
        for_loop fuel' i' cond step body s'
      else Done s
  end.

(** [while (cond) { body }]. *)
Fixpoint while_loop {S : Type} (fuel : nat) (cond : S -> bool)
    (body : S -> outcome S) (s : S) : outcome S :=
  match fuel with
  | O => OutOfFuel
  | Datatypes.S fuel' =>
      if cond s then
        s' ← body s;
        while_loop fuel' cond body s'
      else Done s
  end.

(** [arr[i]]: Panic(0x32) outside the array. *)
Definition index (arr : list Z) (i : Z) : outcome Z :=
  if (0 <=? i) && (i <? Z.of_nat (List.length arr)) then
    match arr !! Z.to_nat i with
    | Some x => Done x
    | None => Revert OutOfBounds
    end
  else Revert OutOfBounds.

(** Running a body over a list of indices in order, up to the first revert. *)
Fixpoint run_over {S : Type} (body : Z -> S -> outcome S) (idx : list Z) (s : S)
  : outcome S :=
  match idx with
  | [] => Done s
  | i :: idx' => s' ← body i s; run_over body idx' s'
  end.

End Sol.

Import Sol.

(** Lines 61-82: the contract that counts in storage. *)
Module SaveGas.

(** [uint8 resulta = 0; uint resultb = 0;] *)
Record storage := { resulta : Z; resultb : Z }.

Definition deployed : storage := {| resulta := 0; resultb := 0 |}.

Definition well_formed (st : storage) : Prop :=
  0 <= resulta st <= max_uint 8 /\ 0 <= resultb st <= max_uint 256.

Definition UseUint (fuel : nat) (st : storage) : outcome (Z * storage) :=
  let selectedRange := 50 in
  st' ← for_loop fuel 0 (fun i => i <? selectedRange)
          (fun i => checked_add 256 i 1)
          (fun _ s =>
             b ← checked_add 256 (resultb s) 1;
             Done {| resulta := resulta s; resultb := b |})
          st;
  Done (resultb st', st').

Definition UseUInt8 (fuel : nat) (st : storage) : outcome (Z * storage) :=
  let selectedRange := 50 in
  st' ← for_loop fuel 0 (fun i => i <? selectedRange)
          (fun i => checked_add 8 i 1)
          (fun _ s =>
             a ← checked_add 8 (resulta s) 1;
             Done {| resulta := a; resultb := resultb s |})
          st;
  Done (resulta st', st').

(** [n] calls of [UseUInt8] in a row, each on the storage the one before
    left, up to the first that reverts. *)
Fixpoint UseUInt8_calls (fuel : nat) (n : nat) (st : storage) : outcome storage :=
  match n with
  | O => Done st
  | Datatypes.S n' =>
      r ← UseUInt8 fuel st;
      UseUInt8_calls fuel n' r.2
  end.

End SaveGas.

(** Lines 302-325: the contract that counts in a local copy. *)
Module SaveGasMem.

Record storage := { resulta : Z; resultb : Z }.

Definition deployed : storage := {| resulta := 0; resultb := 0 |}.

Definition well_formed (st : storage) : Prop :=
  0 <= resulta st <= max_uint 8 /\ 0 <= resultb st <= max_uint 256.

Definition UseUint (fuel : nat) (st : storage) : outcome (Z * storage) :=
  let selectedRange := 50 in
  let resultbMem := resultb st in
  resultbMem' ← for_loop fuel 0 (fun i => i <? selectedRange)
                  (fun i => checked_add 256 i 1)
                  (fun _ m => checked_add 256 m 1)
                  resultbMem;
  Done (resultbMem', st).

Definition UseUInt8 (fuel : nat) (st : storage) : outcome (Z * storage) :=
  let selectedRange := 50 in
  let resultaMem := resulta st in
  resultaMem' ← for_loop fuel 0 (fun i => i <? selectedRange)
                  (fun i => checked_add 8 i 1)
                  (fun _ m => checked_add 8 m 1)
                  resultaMem;
  Done (resultaMem', st).

End SaveGasMem.

(** Lines 202-233: unchecked arithmetic. *)
Module Unchecked.

(** [unchecked { i++; } return i;] *)
Definition unchecked_inc (i : Z) : Z := unchecked_add 256 i 1.

(** [while (zeroToTen < 10) { ++zeroToTen; }] *)
Definition count_to_ten (fuel : nat) (zeroToTen : Z) : outcome Z :=
  while_loop fuel (fun z => z <? 10) (fun z => checked_add 256 z 1) zeroToTen.

(** [while (zeroToTen < 10) { unchecked { ++zeroToTen; } }] *)
Definition count_to_ten_unchecked (fuel : nat) (zeroToTen : Z) : outcome Z :=
  while_loop fuel (fun z => z <? 10) (fun z => Done (unchecked_add 256 z 1))
    zeroToTen.

(** [for (uint i = 0; i < length; i++) { body }] *)
Definition loop_checked {S : Type} (fuel : nat) (length : Z)
    (body : Z -> S -> outcome S) (s : S) : outcome S :=
  for_loop fuel 0 (fun i => i <? length) (fun i => checked_add 256 i 1) body s.

(** [for (uint i = 0; i < length; i = unchecked_inc(i)) { body }] *)
Definition loop_unchecked {S : Type} (fuel : nat) (length : Z)
    (body : Z -> S -> outcome S) (s : S) : outcome S :=
  for_loop fuel 0 (fun i => i <? length) (fun i => Done (unchecked_inc i)) body s.

End Unchecked.

(** Lines 255-274: summing an array.  The [memory] and the [calldata]
    listing have the same body. *)
Module C.

Definition add (fuel : nat) (arr : list Z) : outcome Z :=
  let sum := 0 in
  let length := Z.of_nat (List.length arr) in
  for_loop fuel 0 (fun i => i <? Z.of_nat (List.length arr))
    (fun i => checked_add 256 i 1)
    (fun i sum => x ← index arr i; checked_add 256 sum x)
    sum.

(** An array as the ABI delivers it: every element a [uint256], and a
    length that is one too. *)
Definition well_formed (arr : list Z) : Prop :=
  Forall (fun x => 0 <= x <= max_uint 256) arr /\
  Z.of_nat (List.length arr) <= max_uint 256.

Definition sum_list (arr : list Z) : Z := foldr Z.add 0 arr.

End C.

(** * Properties *)

(** ** The colour table *)

Lemma colorSecondary_light : colorSecondary !! "light" = Some (VStr "gray.700").
Proof. reflexivity. Qed.

Lemma colorSecondary_dark : colorSecondary !! "dark" = Some (VStr "gray.400").
Proof. reflexivity. Qed.

Lemma colorSecondary_other (k : string) :
  k ≠ "light" -> k ≠ "dark" -> colorSecondary !! k = None.
Proof.
  intros Hl Hd. unfold colorSecondary.
  rewrite lookup_insert_ne by congruence.
  rewrite lookup_singleton_ne by congruence. reflexivity.
Qed.

Lemma colorSecondary_dom : dom colorSecondary = ({[ "light"; "dark" ]} : gset string).
Proof.
  unfold colorSecondary. rewrite dom_insert_L, dom_singleton_L. reflexivity.
Qed.

Lemma get_own (o : gmap string value) (k : string) (v : value) :
  o !! k = Some v -> get o k = v.
Proof. intros H. unfold get. rewrite H. reflexivity. Qed.

Lemma get_missing (o : gmap string value) (k : string) :
  o !! k = None ->
  get o k = if bool_decide (k ∈ object_prototype_keys) then VInherited k else VUndefined.
Proof. intros H. unfold get. rewrite H. reflexivity. Qed.

Lemma get_colorSecondary_other (k : string) :
  k ≠ "light" -> k ≠ "dark" ->
  (forall tok, get colorSecondary k ≠ VStr tok) /\
  (k ∉ object_prototype_keys -> get colorSecondary k = VUndefined) /\
  (k ∈ object_prototype_keys -> get colorSecondary k = VInherited k).
Proof.
  intros Hl Hd.
  rewrite (get_missing _ _ (colorSecondary_other k Hl Hd)).
  case_bool_decide as Hk; repeat split; try (intros; congruence); tauto.
Qed.


Lemma to_property_key_str (p : prim) (s : string) :
  s ≠ "undefined" -> s ≠ "null" -> s ≠ "true" -> s ≠ "false" ->
  to_property_key p = s <-> p = PStr s.
Proof.
  intros Hu Hn Ht Hf. split.
  - destruct p as [| |[]|s']; simpl; intros H; congruence.
  - intros ->. reflexivity.
Qed.

Lemma to_property_key_light (p : prim) :
  to_property_key p = "light" <-> p = PStr "light".
Proof. apply to_property_key_str; discriminate. Qed.

Lemma to_property_key_dark (p : prim) :
  to_property_key p = "dark" <-> p = PStr "dark".
Proof. apply to_property_key_str; discriminate. Qed.

(** ** The Info page *)

(** With a context to destructure, the body runs to its [return]; the colour
    prop of the paragraph is the table entry read under the mode's key. *)
Lemma Info_returns (ps : gmap string value) (amb : ambient) (ctx : context) :
  useColorMode amb = Some ctx ->
  exists n, Info ps amb = Normal n /\
    text_color n = Some (get colorSecondary (to_property_key (colorMode ctx))).
Proof.
  intros H. unfold Info. rewrite H. simpl. eexists. split; [reflexivity|].
  vm_compute. reflexivity.
Qed.

(** Without one, the destructuring throws before anything is built. *)
Lemma Info_no_context (ps : gmap string value) (amb : ambient) :
  useColorMode amb = None -> exists e, Info ps amb = Throw e.
Proof. intros H. unfold Info. rewrite H. simpl. eexists. reflexivity. Qed.





(** C2: on every render of Info, a "light" ambient theme mode selects the
    token 'gray.700' and a "dark" one selects 'gray.400'. *)
Theorem Info_color_by_mode (ps : gmap string value) (amb : ambient) (ctx : context) :
  useColorMode amb = Some ctx ->
  (colorMode ctx = PStr "light" ->
   exists n, Info ps amb = Normal n /\ text_color n = Some (VStr "gray.700")) /\
  (colorMode ctx = PStr "dark" ->
   exists n, Info ps amb = Normal n /\ text_color n = Some (VStr "gray.400")).
Proof.
  intros Hctx.
  destruct (Info_returns ps amb ctx Hctx) as (n & Hn & Hc).
  split; intros Hm; exists n; (split; [exact Hn|]);
    rewrite Hc, Hm; reflexivity.
Qed.

Lemma Info_color_by_mode_witness :
  (exists n, Info ∅ light_mode = Normal n /\ text_color n = Some (VStr "gray.700")) /\
  (exists n, Info ∅ dark_mode = Normal n /\ text_color n = Some (VStr "gray.400")).
Proof.
  split.
  - apply (proj1 (Info_color_by_mode ∅ light_mode _ eq_refl)). reflexivity.
  - apply (proj2 (Info_color_by_mode ∅ dark_mode _ eq_refl)). reflexivity.
Defined.



(** C9, as stated, fails: "toString" is neither "light" nor "dark", yet the
    lookup does not return undefined, because the table inherits a member of
    that name from Object.prototype. *)
Lemma Info_lookup_inherited_member :
  PStr "toString" ≠ PStr "light" /\ PStr "toString" ≠ PStr "dark" /\
  get colorSecondary (to_property_key (PStr "toString")) = VInherited "toString" /\
  get colorSecondary (to_property_key (PStr "toString")) ≠ VUndefined /\
  exists n, Info ∅ toString_mode = Normal n /\
    text_color n = Some (VInherited "toString").
Proof.
  split; [discriminate|]. split; [discriminate|].
  split; [reflexivity|]. split; [vm_compute; discriminate|].
  destruct (Info_returns ∅ toString_mode _ eq_refl) as (n & Hn & Hc).
  exists n. split; [exact Hn|]. rewrite Hc. reflexivity.
Qed.

(** C9, amended: for any ambient colorMode that is undefined, null, a
    boolean or a string and lies outside {"light", "dark"}, the lookup
    returns no colour token; it returns undefined unless the mode's key
    names a member inherited from Object.prototype, which is then what it
    returns; Info still returns its tree, so such a third value is not
    rejected. *)
Theorem Info_third_value (ps : gmap string value) (amb : ambient) (ctx : context) :
  useColorMode amb = Some ctx ->
  colorMode ctx ≠ PStr "light" -> colorMode ctx ≠ PStr "dark" ->
  exists n, Info ps amb = Normal n /\
    text_color n = Some (get colorSecondary (to_property_key (colorMode ctx))) /\
    (forall tok, get colorSecondary (to_property_key (colorMode ctx)) ≠ VStr tok) /\
    (to_property_key (colorMode ctx) ∉ object_prototype_keys ->
     get colorSecondary (to_property_key (colorMode ctx)) = VUndefined) /\
    (to_property_key (colorMode ctx) ∈ object_prototype_keys ->
     get colorSecondary (to_property_key (colorMode ctx))
     = VInherited (to_property_key (colorMode ctx))).
Proof.
  intros Hctx Hl Hd.
  destruct (Info_returns ps amb ctx Hctx) as (n & Hn & Hc).
  exists n. split; [exact Hn|]. split; [exact Hc|].
  apply get_colorSecondary_other.
  - rewrite to_property_key_light. exact Hl.
  - rewrite to_property_key_dark. exact Hd.
Qed.

Lemma Info_third_value_witness :
  exists n, Info ∅ sepia_mode = Normal n /\ text_color n = Some VUndefined.
Proof.
  destruct (Info_third_value ∅ sepia_mode {| colorMode := PStr "sepia" |} eq_refl)
    as (n & Hn & Hc & _); [discriminate | discriminate |].
  exists n. split; [exact Hn | exact Hc].
Defined.

(** ** The comment widget *)

Lemma Comment_returns (ps : gmap string value) (amb : ambient) :
  exists n, Comment ps amb = Normal n /\ node_tag n = Some "Giscus" /\
    node_children n = [] /\
    dom (node_props n) =
      ({[ "repo"; "repoId"; "category"; "categoryId"; "mapping";
          "reactionsEnabled"; "emitMetadata"; "theme" ]} : gset string).
Proof.
  eexists. split; [reflexivity|]. split; [reflexivity|]. split; [reflexivity|].
  simpl. rewrite !dom_insert_L, dom_singleton_L. reflexivity.
Qed.

(** C3: on every render, whatever the props and the ambient state, the
    configuration handed to the Giscus element has theme "dark" and mapping
    "pathname". *)
Theorem Comment_theme_and_mapping (ps : gmap string value) (amb : ambient) :
  exists n, Comment ps amb = Normal n /\ node_tag n = Some "Giscus" /\
    node_props n !! "theme" = Some (VStr "dark") /\
    node_props n !! "mapping" = Some (VStr "pathname").
Proof. eexists. repeat split. Qed.

(** C6: every field of the widget's configuration holds a string, and both
    feature flags, reactionsEnabled and emitMetadata, hold the string "0". *)
Theorem Comment_config_strings (ps : gmap string value) (amb : ambient) :
  exists n, Comment ps amb = Normal n /\
    map_Forall (fun _ v => is_string v = true) (node_props n) /\
    node_props n !! "reactionsEnabled" = Some (VStr "0") /\
    node_props n !! "emitMetadata" = Some (VStr "0").
Proof.
  eexists. split; [reflexivity|]. split; [|split; reflexivity].
  simpl. repeat (apply map_Forall_insert_2; [reflexivity|]).
  apply map_Forall_empty.
Qed.

(** C7: Comment reads neither its props nor the ambient state: there is one
    element tree that every render returns, so any two renders carry the
    same configuration record. *)
Theorem Comment_deterministic :
  (exists n, forall (ps : gmap string value) (amb : ambient), Comment ps amb = Normal n) /\
  (forall (ps1 ps2 : gmap string value) (amb1 amb2 : ambient),
     Comment ps1 amb1 = Comment ps2 amb2).
Proof. split; [eexists; intros; reflexivity | reflexivity]. Qed.

(** C10: on every render the identifiers are repo "melvnl/melvinliu.com",
    repoId "R_kgDOHk-dUg", category "General" and categoryId
    "DIC_kwDOHk-dUs4CP-Ao"; the repo is not this site's own repository. *)
Theorem Comment_identifiers (ps : gmap string value) (amb : ambient) :
  exists n, Comment ps amb = Normal n /\
    node_props n !! "repo" = Some (VStr "melvnl/melvinliu.com") /\
    node_props n !! "repoId" = Some (VStr "R_kgDOHk-dUg") /\
    node_props n !! "category" = Some (VStr "General") /\
    node_props n !! "categoryId" = Some (VStr "DIC_kwDOHk-dUs4CP-Ao") /\
    node_props n !! "repo" ≠ Some (VStr site_repository).
Proof. eexists. repeat split. discriminate. Qed.

(** ** Both components *)

(** C4: when the ambient theme mode is "light" or "dark", neither Info nor
    Comment throws: each returns its element tree. *)
Theorem render_never_throws (ps : gmap string value) (amb : ambient) (ctx : context) :
  useColorMode amb = Some ctx ->
  colorMode ctx = PStr "light" \/ colorMode ctx = PStr "dark" ->
  (forall e, Info ps amb ≠ Throw e) /\ (forall e, Comment ps amb ≠ Throw e) /\
  (exists n, Info ps amb = Normal n) /\ (exists n, Comment ps amb = Normal n).
Proof.
  intros Hctx _.
  destruct (Info_returns ps amb ctx Hctx) as (n & Hn & _).
  repeat split.
  - intros e. rewrite Hn. discriminate.
  - intros e. discriminate.
  - eauto.
  - eexists. reflexivity.
Qed.

Lemma render_never_throws_witness :
  (forall e, Info ∅ dark_mode ≠ Throw e) /\ (forall e, Comment ∅ dark_mode ≠ Throw e) /\
  (exists n, Info ∅ dark_mode = Normal n) /\ (exists n, Comment ∅ dark_mode = Normal n).
Proof.
  apply (render_never_throws ∅ dark_mode {| colorMode := PStr "dark" |}).
  - reflexivity.
  - right. reflexivity.
Defined.

(** The hypothesis on the ambient state is needed: were the hook call to
    evaluate to undefined or null, the destructuring in Info would throw. *)
Example Info_throws_on_nullish_hook :
  Info ∅ nullish_hook = Throw (TypeError "Cannot destructure property 'colorMode'").
Proof. reflexivity. Qed.

(** ** Blog documents *)

Module FrontMatterFacts.
Import FrontMatter.

Example valid_date_leap : valid_date "2024-02-29" = true.
Proof. reflexivity. Qed.

Example valid_date_not_leap : valid_date "2023-02-29" = false.
Proof. reflexivity. Qed.

Example valid_date_month : valid_date "2022-13-01" = false.
Proof. reflexivity. Qed.

Example valid_date_shape : valid_date "2022-6-29" = false.
Proof. reflexivity. Qed.

Example valid_date_trailing : valid_date "2022-06-29T" = false.
Proof. reflexivity. Qed.

Example unquote_quoted : unquote "'2022-06-29'" = "2022-06-29".
Proof. reflexivity. Qed.

Example unquote_bare : unquote "2022-06-29" = "2022-06-29".
Proof. reflexivity. Qed.

Example parse_no_header : parse ["# Heading"; "text"] = None.
Proof. reflexivity. Qed.

Example parse_missing_title :
  parse ["---"; "publishedAt: '2022-06-29'"; "summary: 's'"; "---"; "text"] = None.
Proof. reflexivity. Qed.

(** The header block ends at the first [---] line; what follows is the body. *)
Lemma parse_fields_shape (ls : list string) :
  forall (acc fields : gmap string string) (body : list string),
    parse_fields ls acc = Some (fields, body) ->
    exists hd : list string, ls = (hd ++ "---" :: body)%list /\ Forall (fun l => l ≠ "---") hd.
Proof.
  induction ls as [|l rest IH]; intros acc fields body H; simpl in H.
  - discriminate.
  - case_bool_decide as Hl.
    + injection H as <- <-. exists []. subst l. split; [reflexivity | constructor].
    + destruct (split_field l) as [[k v]|]; [|discriminate].
      destruct (IH _ _ _ H) as (hd & -> & Hhd).
      exists (l :: hd). split; [reflexivity | constructor; assumption].
Qed.

Lemma parse_shape (doc : list string) (h : header) (body : list string) :
  parse doc = Some (h, body) ->
  exists hd : list string, doc = ("---" :: hd ++ "---" :: body)%list /\ Forall (fun l => l ≠ "---") hd.
Proof.
  destruct doc as [|first rest]; simpl; [discriminate|].
  case_bool_decide as Hf; [|discriminate]. subst first.
  destruct (parse_fields rest ∅) as [[fields body']|] eqn:Hp; simpl; [|discriminate].
  destruct (fields !! "title"); simpl; [|discriminate].
  destruct (fields !! "publishedAt"); simpl; [|discriminate].
  destruct (fields !! "summary"); simpl; [|discriminate].
  intros H. injection H as _ <-.
  destruct (parse_fields_shape _ _ _ _ Hp) as (hd & -> & Hhd). eauto.
Qed.

(** A valid date string has exactly the ten characters of YYYY-MM-DD. *)
Lemma valid_date_length (s : string) :
  valid_date s = true -> String.length s = 10%nat.
Proof.
  unfold valid_date.
  destruct (decimal (substring 0 4 s)); [|discriminate].
  destruct (decimal (substring 5 2 s)); [|discriminate].
  destruct (decimal (substring 8 2 s)); [|discriminate].
  rewrite !andb_true_iff. intros [[[[[[H _] _] _] _] _] _].
  apply Nat.eqb_eq. exact H.
Qed.

End FrontMatterFacts.

(** C5: the blog document of the repository, whatever its body lines, parses
    into a front-matter header with a non-empty title, a publishedAt that is
    a valid date string and a summary, followed by its body. *)
Theorem optimizations_contracts_parses (body : list string) :
  exists h, FrontMatter.parse (FrontMatter.optimizations_contracts body) = Some (h, body) /\
    FrontMatter.title h = "Optimizations Solidity Smart Contracts" /\
    FrontMatter.title h ≠ "" /\
    FrontMatter.publishedAt h = "2022-06-29" /\
    FrontMatter.valid_date (FrontMatter.publishedAt h) = true /\
    FrontMatter.summary h =
      "Post to be updated over time with recommended optimizations for Solidity.".
Proof.
  eexists. split; [vm_compute; reflexivity|].
  simpl. repeat split. discriminate.
Qed.

(** * The Solidity listings *)

(** ** Arithmetic and loops *)

Module SolFacts.

Lemma max_uint_8 : max_uint 8 = 255.
Proof. reflexivity. Qed.

Lemma max_uint_256_large : 1000 <= max_uint 256.
Proof. unfold max_uint. change (2 ^ 256) with (2 ^ 10 * 2 ^ 246). lia. Qed.

Lemma checked_add_ok (bits x y : Z) :
  x + y <= max_uint bits -> checked_add bits x y = Done (x + y).
Proof.
  intros H. unfold checked_add.
  destruct (Z.leb_spec (x + y) (max_uint bits)); [reflexivity | lia].
Qed.

Lemma checked_add_overflow (bits x y : Z) :
  max_uint bits < x + y -> checked_add bits x y = Revert Overflow.
Proof.
  intros H. unfold checked_add.
  destruct (Z.leb_spec (x + y) (max_uint bits)); [lia | reflexivity].
Qed.

Lemma unchecked_add_small (bits x y : Z) :
  0 <= x + y <= max_uint bits -> unchecked_add bits x y = x + y.
Proof.
  intros H. unfold unchecked_add, max_uint in *. apply Z.mod_small. lia.
Qed.

Lemma bind_Done {A : Type} (c : outcome A) : (c ≫= Done) = c.
Proof. destruct c; reflexivity. Qed.

Lemma for_loop_body_ext {S : Type} (cond : Z -> bool) (step : Z -> outcome Z)
    (body1 body2 : Z -> S -> outcome S) :
  (forall i s, body1 i s = body2 i s) ->
  forall (fuel : nat) (i : Z) (s : S),
    for_loop fuel i cond step body1 s = for_loop fuel i cond step body2 s.
Proof.
  intros Hbody fuel. induction fuel as [|fuel IH]; intros i s; simpl.
  - reflexivity.
  - destruct (cond i); [|reflexivity]. rewrite Hbody.
    destruct (body2 i s) as [s'| |]; simpl; try reflexivity.
    destruct (step i) as [i'| |]; simpl; try reflexivity. apply IH.
Qed.

(** Two steps that both move from [j] to [j + 1] below the bound give the
    same loop, fuel for fuel. *)
Lemma for_loop_step_ext {S : Type} (n : Z) (step1 step2 : Z -> outcome Z)
    (body : Z -> S -> outcome S) :
  (forall j, 0 <= j < n -> step1 j = Done (j + 1) /\ step2 j = Done (j + 1)) ->
  forall (fuel : nat) (i : Z) (s : S), 0 <= i ->
    for_loop fuel i (fun i => i <? n) step1 body s =
    for_loop fuel i (fun i => i <? n) step2 body s.
Proof.
  intros Hstep fuel. induction fuel as [|fuel IH]; intros i s Hi; simpl.
  - reflexivity.
  - destruct (Z.ltb_spec i n) as [Hlt|Hge]; [|reflexivity].
    destruct (body i s) as [s'| |]; simpl; try reflexivity.
    destruct (Hstep i ltac:(lia)) as [-> ->]. simpl. apply IH. lia.
Qed.

(** A counting loop with enough fuel runs its body over the indices from
    [i] up to the bound, in order, and stops at the first revert. *)
Lemma for_loop_run_over {S : Type} (n : Z) (step : Z -> outcome Z)
    (body : Z -> S -> outcome S) :
  (forall j, 0 <= j < n -> step j = Done (j + 1)) ->
  forall (fuel : nat) (i : Z) (s : S), 0 <= i ->
    Z.max 0 (n - i) < Z.of_nat fuel ->
    for_loop fuel i (fun i => i <? n) step body s =
    run_over body (seqZ i (n - i)) s.
Proof.
  intros Hstep fuel. induction fuel as [|fuel IH]; intros i s Hi Hfuel; simpl.
  - lia.
  - destruct (Z.ltb_spec i n) as [Hlt|Hge].
    + rewrite seqZ_cons by lia. simpl.
      destruct (body i s) as [s'| |]; simpl; try reflexivity.
      rewrite Hstep by lia. simpl.
      rewrite IH by lia. f_equal. f_equal; lia.
    + rewrite seqZ_nil by lia. reflexivity.
Qed.

(** Adding one to a field of the state once per index: the field grows by
    the number of indices, or the run reverts when that does not fit. *)
Section Counter.
Context {S : Type} (bits : Z) (get : S -> Z) (put : Z -> S -> S).
Hypothesis put_get : forall s, put (get s) s = s.
Hypothesis get_put : forall b s, get (put b s) = b.
Hypothesis put_put : forall b b' s, put b (put b' s) = put b s.

Lemma run_over_counter (idx : list Z) :
  forall s : S, get s <= max_uint bits ->
    run_over (fun _ s => b ← checked_add bits (get s) 1; Done (put b s)) idx s =
    if get s + Z.of_nat (List.length idx) <=? max_uint bits
    then Done (put (get s + Z.of_nat (List.length idx)) s)
    else Revert Overflow.
Proof.
  induction idx as [|i idx IH]; intros s Hs.
  - simpl. rewrite Z.add_0_r, put_get.
    destruct (Z.leb_spec (get s) (max_uint bits)); [reflexivity | lia].
  - cbn [run_over List.length].
    destruct (Z.leb_spec (get s + 1) (max_uint bits)) as [Hle|Hgt].
    + rewrite checked_add_ok by exact Hle. simpl.
      rewrite IH by (rewrite get_put; exact Hle).
      rewrite get_put, put_put.
      replace (get s + 1 + Z.of_nat (List.length idx))
        with (get s + Z.of_nat (Datatypes.S (List.length idx))) by lia.
      reflexivity.
    + rewrite checked_add_overflow by exact Hgt. simpl.
      destruct (Z.leb_spec (get s + Z.of_nat (Datatypes.S (List.length idx)))
                  (max_uint bits)); [lia | reflexivity].
Qed.
End Counter.

(** The loop the four [SaveGas] functions share: fifty rounds of adding one
    to a field. *)
Lemma fifty_rounds {S : Type} (bits : Z) (get : S -> Z) (put : Z -> S -> S) :
  (forall s, put (get s) s = s) ->
  (forall b s, get (put b s) = b) ->
  (forall b b' s, put b (put b' s) = put b s) ->
  50 <= max_uint bits ->
  forall (fuel : nat) (s : S), (50 < fuel)%nat -> get s <= max_uint bits ->
    for_loop fuel 0 (fun i => i <? 50) (fun i => checked_add bits i 1)
      (fun _ s => b ← checked_add bits (get s) 1; Done (put b s)) s =
    if get s + 50 <=? max_uint bits then Done (put (get s + 50) s)
    else Revert Overflow.
Proof.
  intros H1 H2 H3 Hbits fuel s Hfuel Hs.
  rewrite for_loop_run_over by (try (intros j Hj; apply checked_add_ok); lia).
  rewrite (run_over_counter bits get put H1 H2 H3) by exact Hs.
  reflexivity.
Qed.

End SolFacts.

(** ** The SaveGas contracts *)

Module SaveGasFacts.
Import SolFacts.

Lemma UseUint_spec (fuel : nat) (st : SaveGas.storage) :
  (50 < fuel)%nat -> SaveGas.resultb st <= max_uint 256 ->
  SaveGas.UseUint fuel st =
  if SaveGas.resultb st + 50 <=? max_uint 256
  then Done (SaveGas.resultb st + 50,
             {| SaveGas.resulta := SaveGas.resulta st;
                SaveGas.resultb := SaveGas.resultb st + 50 |})
  else Revert Overflow.
Proof.
  intros Hfuel Hb. unfold SaveGas.UseUint.
  rewrite (fifty_rounds 256 SaveGas.resultb
             (fun b s => {| SaveGas.resulta := SaveGas.resulta s; SaveGas.resultb := b |})).
  - destruct (_ <=? _); reflexivity.
  - intros []; reflexivity.
  - reflexivity.
  - reflexivity.
  - pose proof max_uint_256_large. lia.
  - exact Hfuel.
  - exact Hb.
Qed.

Lemma UseUInt8_spec (fuel : nat) (st : SaveGas.storage) :
  (50 < fuel)%nat -> SaveGas.resulta st <= max_uint 8 ->
  SaveGas.UseUInt8 fuel st =
  if SaveGas.resulta st + 50 <=? max_uint 8
  then Done (SaveGas.resulta st + 50,
             {| SaveGas.resulta := SaveGas.resulta st + 50;
                SaveGas.resultb := SaveGas.resultb st |})
  else Revert Overflow.
Proof.
  intros Hfuel Ha. unfold SaveGas.UseUInt8.
  rewrite (fifty_rounds 8 SaveGas.resulta
             (fun a s => {| SaveGas.resulta := a; SaveGas.resultb := SaveGas.resultb s |})).
  - destruct (_ <=? _); reflexivity.
  - intros []; reflexivity.
  - reflexivity.
  - reflexivity.
  - rewrite max_uint_8. lia.
  - exact Hfuel.
  - exact Ha.
Qed.

Lemma Mem_UseUint_spec (fuel : nat) (st : SaveGasMem.storage) :
  (50 < fuel)%nat -> SaveGasMem.resultb st <= max_uint 256 ->
  SaveGasMem.UseUint fuel st =
  if SaveGasMem.resultb st + 50 <=? max_uint 256
  then Done (SaveGasMem.resultb st + 50, st)
  else Revert Overflow.
Proof.
  intros Hfuel Hb. unfold SaveGasMem.UseUint.
  rewrite (for_loop_body_ext _ _ _
             (fun _ m => b ← checked_add 256 m 1; Done b))
    by (intros; symmetry; apply bind_Done).
  rewrite (fifty_rounds 256 (fun m : Z => m) (fun b _ => b)).
  - destruct (_ <=? _); reflexivity.
  - reflexivity.
  - reflexivity.
  - reflexivity.
  - pose proof max_uint_256_large. lia.
  - exact Hfuel.
  - exact Hb.
Qed.

Lemma Mem_UseUInt8_spec (fuel : nat) (st : SaveGasMem.storage) :
  (50 < fuel)%nat -> SaveGasMem.resulta st <= max_uint 8 ->
  SaveGasMem.UseUInt8 fuel st =
  if SaveGasMem.resulta st + 50 <=? max_uint 8
  then Done (SaveGasMem.resulta st + 50, st)
  else Revert Overflow.
Proof.
  intros Hfuel Ha. unfold SaveGasMem.UseUInt8.
  rewrite (for_loop_body_ext _ _ _
             (fun _ m => b ← checked_add 8 m 1; Done b))
    by (intros; symmetry; apply bind_Done).
  rewrite (fifty_rounds 8 (fun m : Z => m) (fun b _ => b)).
  - destruct (_ <=? _); reflexivity.
  - reflexivity.
  - reflexivity.
  - reflexivity.
  - rewrite max_uint_8. lia.
  - exact Hfuel.
  - exact Ha.
Qed.

Lemma deployed_well_formed : SaveGas.well_formed SaveGas.deployed.
Proof.
  unfold SaveGas.well_formed. simpl. rewrite max_uint_8.
  pose proof max_uint_256_large. lia.
Qed.

Lemma Mem_deployed_well_formed : SaveGasMem.well_formed SaveGasMem.deployed.
Proof.
  unfold SaveGasMem.well_formed. simpl. rewrite max_uint_8.
  pose proof max_uint_256_large. lia.
Qed.

End SaveGasFacts.

(** With fuel for its fifty rounds, [UseUint] of the storage listing adds
    50 to [resultb], returns the new value and leaves [resulta] alone; when
    [resultb + 50] does not fit in a uint256 it reverts with the overflow
    panic.  A successful call leaves the storage well formed. *)
Theorem SaveGas_UseUint_adds_fifty (fuel : nat) (st : SaveGas.storage) :
  (50 < fuel)%nat -> SaveGas.well_formed st ->
  (SaveGas.resultb st + 50 <= max_uint 256 ->
   SaveGas.UseUint fuel st =
     Done (SaveGas.resultb st + 50,
           {| SaveGas.resulta := SaveGas.resulta st;
              SaveGas.resultb := SaveGas.resultb st + 50 |}) /\
   SaveGas.well_formed
     {| SaveGas.resulta := SaveGas.resulta st;
        SaveGas.resultb := SaveGas.resultb st + 50 |}) /\
  (max_uint 256 < SaveGas.resultb st + 50 ->
   SaveGas.UseUint fuel st = Revert Overflow).
Proof.
  intros Hfuel [Ha Hb].
  rewrite (SaveGasFacts.UseUint_spec fuel st Hfuel) by lia.
  split; intros H.
  - destruct (Z.leb_spec (SaveGas.resultb st + 50) (max_uint 256)); [|lia].
    split; [reflexivity|]. unfold SaveGas.well_formed. simpl. lia.
  - destruct (Z.leb_spec (SaveGas.resultb st + 50) (max_uint 256)); [lia|].
    reflexivity.
Qed.

Lemma SaveGas_UseUint_adds_fifty_witness :
  SaveGas.UseUint 51 SaveGas.deployed =
  Done (50, {| SaveGas.resulta := 0; SaveGas.resultb := 50 |}).
Proof.
  apply (proj1 (SaveGas_UseUint_adds_fifty 51 SaveGas.deployed ltac:(lia)
                  SaveGasFacts.deployed_well_formed)).
  pose proof SolFacts.max_uint_256_large. simpl. lia.
Defined.

(** With fuel for its fifty rounds, [UseUInt8] of the storage listing adds
    50 to [resulta] and returns it as long as [resulta] is at most 205;
    above 205 the uint8 addition overflows and the call reverts.  It leaves
    [resultb] alone, and a successful call leaves the storage well formed. *)
Theorem SaveGas_UseUInt8_adds_fifty (fuel : nat) (st : SaveGas.storage) :
  (50 < fuel)%nat -> SaveGas.well_formed st ->
  (SaveGas.resulta st <= 205 ->
   SaveGas.UseUInt8 fuel st =
     Done (SaveGas.resulta st + 50,
           {| SaveGas.resulta := SaveGas.resulta st + 50;
              SaveGas.resultb := SaveGas.resultb st |}) /\
   SaveGas.well_formed
     {| SaveGas.resulta := SaveGas.resulta st + 50;
        SaveGas.resultb := SaveGas.resultb st |}) /\
  (205 < SaveGas.resulta st ->
   SaveGas.UseUInt8 fuel st = Revert Overflow).
Proof.
  intros Hfuel [Ha Hb].
  rewrite (SaveGasFacts.UseUInt8_spec fuel st Hfuel) by lia.
  rewrite SolFacts.max_uint_8 in *.
  split; intros H.
  - destruct (Z.leb_spec (SaveGas.resulta st + 50) 255); [|lia].
    split; [reflexivity|]. unfold SaveGas.well_formed. simpl.
    rewrite SolFacts.max_uint_8. lia.
  - destruct (Z.leb_spec (SaveGas.resulta st + 50) 255); [lia|].
    reflexivity.
Qed.

Lemma SaveGas_UseUInt8_adds_fifty_witness :
  SaveGas.UseUInt8 51 {| SaveGas.resulta := 250; SaveGas.resultb := 0 |}
  = Revert Overflow.
Proof.
  apply (proj2 (SaveGas_UseUInt8_adds_fifty 51
                  {| SaveGas.resulta := 250; SaveGas.resultb := 0 |} ltac:(lia)
                  ltac:(unfold SaveGas.well_formed; simpl;
                        rewrite SolFacts.max_uint_8;
                        pose proof SolFacts.max_uint_256_large; lia))).
  simpl. lia.
Defined.

(** [n] calls of [UseUInt8] in a row all succeed exactly when
    [resulta + 50 * n] still fits in a uint8, and then leave [resulta]
    raised by [50 * n]; so from any storage a sixth call in a row reverts,
    and from deployment the first five succeed. *)
Theorem SaveGas_UseUInt8_calls (fuel : nat) (n : nat) (st : SaveGas.storage) :
  (50 < fuel)%nat -> SaveGas.well_formed st ->
  (SaveGas.resulta st + 50 * Z.of_nat n <= 255 ->
   SaveGas.UseUInt8_calls fuel n st =
     Done {| SaveGas.resulta := SaveGas.resulta st + 50 * Z.of_nat n;
             SaveGas.resultb := SaveGas.resultb st |}) /\
  (255 < SaveGas.resulta st + 50 * Z.of_nat n ->
   SaveGas.UseUInt8_calls fuel n st = Revert Overflow) /\
  ((6 <= n)%nat -> SaveGas.UseUInt8_calls fuel n st = Revert Overflow).
Proof.
  intros Hfuel. revert st.
  assert (Hmain : forall (n : nat) (st : SaveGas.storage), SaveGas.well_formed st ->
    SaveGas.UseUInt8_calls fuel n st =
    if SaveGas.resulta st + 50 * Z.of_nat n <=? 255
    then Done {| SaveGas.resulta := SaveGas.resulta st + 50 * Z.of_nat n;
                 SaveGas.resultb := SaveGas.resultb st |}
    else Revert Overflow).
  { clear n. induction n as [|n IH]; intros st Hwf.
    - destruct Hwf as [Ha _]. rewrite SolFacts.max_uint_8 in Ha. simpl.
      destruct (Z.leb_spec (SaveGas.resulta st + 50 * Z.of_nat 0) 255); [|lia].
      destruct st; simpl; do 2 f_equal; lia.
    - cbn [SaveGas.UseUInt8_calls].
      destruct Hwf as [Ha Hb].
      rewrite (SaveGasFacts.UseUInt8_spec fuel st Hfuel) by lia.
      rewrite SolFacts.max_uint_8 in *.
      destruct (Z.leb_spec (SaveGas.resulta st + 50) 255) as [Hle|Hgt]; simpl.
      + rewrite IH
          by (unfold SaveGas.well_formed; simpl; rewrite SolFacts.max_uint_8; lia).
        simpl.
        replace (SaveGas.resulta st + 50 + 50 * Z.of_nat n)
          with (SaveGas.resulta st + 50 * Z.of_nat (Datatypes.S n)) by lia.
        reflexivity.
      + destruct (Z.leb_spec (SaveGas.resulta st + 50 * Z.of_nat (Datatypes.S n)) 255);
          [lia | reflexivity]. }
  intros st Hwf. rewrite (Hmain n st Hwf).
  destruct Hwf as [Ha _]. rewrite SolFacts.max_uint_8 in Ha.
  destruct (Z.leb_spec (SaveGas.resulta st + 50 * Z.of_nat n) 255);
    repeat split; intros; try reflexivity; lia.
Qed.

Lemma SaveGas_UseUInt8_calls_witness :
  SaveGas.UseUInt8_calls 51 5 SaveGas.deployed =
    Done {| SaveGas.resulta := 250; SaveGas.resultb := 0 |} /\
  SaveGas.UseUInt8_calls 51 6 SaveGas.deployed = Revert Overflow.
Proof.
  split.
  - apply (proj1 (SaveGas_UseUInt8_calls 51 5 SaveGas.deployed ltac:(lia)
                    SaveGasFacts.deployed_well_formed)).
    simpl. lia.
  - apply (proj2 (proj2 (SaveGas_UseUInt8_calls 51 6 SaveGas.deployed ltac:(lia)
                           SaveGasFacts.deployed_well_formed))).
    lia.
Defined.

(** [UseUint] of the memory listing returns [resultb + 50], as the storage
    listing's does, and reverts in the same case; but it counts in a local
    copy that it never writes back, so the storage after the call is the
    storage before it, where the storage listing's has [resultb] raised. *)
Theorem SaveGasMem_UseUint_keeps_storage (fuel : nat) (a b : Z) :
  (50 < fuel)%nat -> 0 <= b <= max_uint 256 ->
  (b + 50 <= max_uint 256 ->
   SaveGasMem.UseUint fuel {| SaveGasMem.resulta := a; SaveGasMem.resultb := b |}
     = Done (b + 50, {| SaveGasMem.resulta := a; SaveGasMem.resultb := b |}) /\
   SaveGas.UseUint fuel {| SaveGas.resulta := a; SaveGas.resultb := b |}
     = Done (b + 50, {| SaveGas.resulta := a; SaveGas.resultb := b + 50 |})) /\
  (max_uint 256 < b + 50 ->
   SaveGasMem.UseUint fuel {| SaveGasMem.resulta := a; SaveGasMem.resultb := b |}
     = Revert Overflow /\
   SaveGas.UseUint fuel {| SaveGas.resulta := a; SaveGas.resultb := b |}
     = Revert Overflow).
Proof.
  intros Hfuel Hb.
  rewrite (SaveGasFacts.Mem_UseUint_spec fuel _ Hfuel) by (simpl; lia).
  rewrite (SaveGasFacts.UseUint_spec fuel _ Hfuel) by (simpl; lia).
  simpl.
  destruct (Z.leb_spec (b + 50) (max_uint 256));
    split; intros; try lia; split; reflexivity.
Qed.

Lemma SaveGasMem_UseUint_keeps_storage_witness :
  SaveGasMem.UseUint 51 SaveGasMem.deployed = Done (50, SaveGasMem.deployed) /\
  SaveGas.UseUint 51 SaveGas.deployed
    = Done (50, {| SaveGas.resulta := 0; SaveGas.resultb := 50 |}).
Proof.
  pose proof SolFacts.max_uint_256_large as Hlarge.
  apply (proj1 (SaveGasMem_UseUint_keeps_storage 51 0 0 ltac:(lia) ltac:(lia))).
  lia.
Defined.

(** [UseUInt8] of the memory listing returns [resulta + 50] when [resulta]
    is at most 205 and reverts above, as the storage listing's does; it too
    never writes its local copy back, so the storage is left as it was. *)
Theorem SaveGasMem_UseUInt8_keeps_storage (fuel : nat) (a b : Z) :
  (50 < fuel)%nat -> 0 <= a <= max_uint 8 ->
  (a <= 205 ->
   SaveGasMem.UseUInt8 fuel {| SaveGasMem.resulta := a; SaveGasMem.resultb := b |}
     = Done (a + 50, {| SaveGasMem.resulta := a; SaveGasMem.resultb := b |}) /\
   SaveGas.UseUInt8 fuel {| SaveGas.resulta := a; SaveGas.resultb := b |}
     = Done (a + 50, {| SaveGas.resulta := a + 50; SaveGas.resultb := b |})) /\
  (205 < a ->
   SaveGasMem.UseUInt8 fuel {| SaveGasMem.resulta := a; SaveGasMem.resultb := b |}
     = Revert Overflow /\
   SaveGas.UseUInt8 fuel {| SaveGas.resulta := a; SaveGas.resultb := b |}
     = Revert Overflow).
Proof.
  intros Hfuel Ha.
  rewrite (SaveGasFacts.Mem_UseUInt8_spec fuel _ Hfuel) by (simpl; lia).
  rewrite (SaveGasFacts.UseUInt8_spec fuel _ Hfuel) by (simpl; lia).
  simpl. rewrite SolFacts.max_uint_8 in *.
  destruct (Z.leb_spec (a + 50) 255);
    split; intros; try lia; split; reflexivity.
Qed.

Lemma SaveGasMem_UseUInt8_keeps_storage_witness :
  SaveGasMem.UseUInt8 51 {| SaveGasMem.resulta := 200; SaveGasMem.resultb := 7 |}
    = Done (250, {| SaveGasMem.resulta := 200; SaveGasMem.resultb := 7 |}) /\
  SaveGas.UseUInt8 51 {| SaveGas.resulta := 200; SaveGas.resultb := 7 |}
    = Done (250, {| SaveGas.resulta := 250; SaveGas.resultb := 7 |}).
Proof.
  apply (proj1 (SaveGasMem_UseUInt8_keeps_storage 51 200 7 ltac:(lia)
                  ltac:(rewrite SolFacts.max_uint_8; lia))).
  lia.
Defined.

(** ** Unchecked arithmetic *)

Module UncheckedFacts.
Import SolFacts Unchecked.

Lemma pow_256_pos : 0 < 2 ^ 256.
Proof. apply Z.pow_pos_nonneg; lia. Qed.

Lemma unchecked_inc_small (i : Z) :
  0 <= i < max_uint 256 -> unchecked_inc i = i + 1.
Proof. intros H. apply unchecked_add_small. lia. Qed.

Lemma count_to_ten_both (fuel : nat) :
  forall z : Z, 0 <= z <= max_uint 256 -> Z.max 0 (10 - z) < Z.of_nat fuel ->
    count_to_ten fuel z = Done (Z.max z 10) /\
    count_to_ten_unchecked fuel z = Done (Z.max z 10).
Proof.
  pose proof max_uint_256_large as Hlarge.
  unfold count_to_ten, count_to_ten_unchecked.
  induction fuel as [|fuel IH]; intros z Hz Hfuel; [lia|]. simpl.
  destruct (Z.ltb_spec z 10) as [Hlt|Hge].
  - rewrite checked_add_ok by lia. rewrite unchecked_add_small by lia. simpl.
    destruct (IH (z + 1) ltac:(lia) ltac:(lia)) as [-> ->].
    split; f_equal; lia.
  - split; f_equal; lia.
Qed.

Lemma loop_equiv {S : Type} (fuel : nat) (length : Z)
    (body : Z -> S -> outcome S) (s : S) :
  length <= max_uint 256 ->
  loop_checked fuel length body s = loop_unchecked fuel length body s.
Proof.
  intros Hlen. unfold loop_checked, loop_unchecked.
  apply for_loop_step_ext; [|lia].
  intros j Hj. split.
  - apply checked_add_ok. lia.
  - f_equal. apply unchecked_inc_small. lia.
Qed.

End UncheckedFacts.

(** [unchecked_inc] stays within uint256.  Below the maximum it is the
    checked increment; at the maximum it wraps to 0 where the checked
    increment reverts. *)
Theorem unchecked_inc_wraps (i : Z) :
  0 <= i <= max_uint 256 ->
  0 <= Unchecked.unchecked_inc i <= max_uint 256 /\
  (i < max_uint 256 ->
   Unchecked.unchecked_inc i = i + 1 /\ checked_add 256 i 1 = Done (i + 1)) /\
  (i = max_uint 256 ->
   Unchecked.unchecked_inc i = 0 /\ checked_add 256 i 1 = Revert Overflow).
Proof.
  intros Hi. pose proof UncheckedFacts.pow_256_pos as Hpos.
  split; [|split].
  - unfold Unchecked.unchecked_inc, unchecked_add, max_uint.
    pose proof (Z.mod_pos_bound (i + 1) (2 ^ 256) Hpos). lia.
  - intros Hlt. split.
    + apply UncheckedFacts.unchecked_inc_small. lia.
    + apply SolFacts.checked_add_ok. lia.
  - intros ->. split.
    + unfold Unchecked.unchecked_inc, unchecked_add, max_uint.
      replace (2 ^ 256 - 1 + 1) with (2 ^ 256) by lia.
      apply Z.mod_same. lia.
    + apply SolFacts.checked_add_overflow. lia.
Qed.

Lemma unchecked_inc_wraps_witness :
  Unchecked.unchecked_inc (max_uint 256) = 0 /\
  checked_add 256 (max_uint 256) 1 = Revert Overflow.
Proof.
  pose proof UncheckedFacts.pow_256_pos as Hpos.
  apply (proj2 (proj2 (unchecked_inc_wraps (max_uint 256)
                         ltac:(unfold max_uint; lia)))).
  reflexivity.
Defined.

(** For a length that is a uint256, the loop stepping with [i++] and the
    loop stepping with [unchecked_inc] give the same outcome for every body,
    state and amount of fuel: the counter never reaches the maximum. *)
Theorem loop_unchecked_equiv {S : Type} (fuel : nat) (length : Z)
    (body : Z -> S -> outcome S) (s : S) :
  0 <= length <= max_uint 256 ->
  Unchecked.loop_checked fuel length body s =
  Unchecked.loop_unchecked fuel length body s.
Proof.
  intros Hlen. apply UncheckedFacts.loop_equiv. lia.
Qed.

Lemma loop_unchecked_equiv_witness :
  Unchecked.loop_checked 4 3 (fun i s => checked_add 256 s i) 0 =
  Unchecked.loop_unchecked 4 3 (fun i s => checked_add 256 s i) 0.
Proof.
  pose proof SolFacts.max_uint_256_large as Hlarge.
  apply (loop_unchecked_equiv 4 3 (fun i s => checked_add 256 s i) 0). lia.
Defined.

(** With more fuel than [length], both loops run the body once for each
    index 0, 1, ..., length - 1, in that order, and stop at the first body
    that reverts; neither runs out of fuel. *)
Theorem loops_run_body_over_indices {S : Type} (fuel : nat) (length : Z)
    (body : Z -> S -> outcome S) (s : S) :
  0 <= length <= max_uint 256 -> length < Z.of_nat fuel ->
  Unchecked.loop_checked fuel length body s = run_over body (seqZ 0 length) s /\
  Unchecked.loop_unchecked fuel length body s = run_over body (seqZ 0 length) s.
Proof.
  intros Hlen Hfuel.
  rewrite <- (UncheckedFacts.loop_equiv fuel length body s) by lia.
  assert (Unchecked.loop_checked fuel length body s =
          run_over body (seqZ 0 length) s) as ->; [|split; reflexivity].
  unfold Unchecked.loop_checked.
  rewrite SolFacts.for_loop_run_over; try lia.
  - rewrite Z.sub_0_r. reflexivity.
  - intros j Hj. apply SolFacts.checked_add_ok. lia.
Qed.

Lemma loops_run_body_over_indices_witness :
  Unchecked.loop_unchecked 4 3 (fun i s => checked_add 256 s i) 0 =
  run_over (fun i s => checked_add 256 s i) [0; 1; 2] 0.
Proof.
  pose proof SolFacts.max_uint_256_large as Hlarge.
  apply (proj2 (loops_run_body_over_indices 4 3
                  (fun i s => checked_add 256 s i) 0 ltac:(lia) ltac:(lia))).
Defined.

(** From any uint256 start both counting loops stop, with 10 if they
    started below 10 and with the start value otherwise; the unchecked loop
    never wraps. *)
Theorem count_to_ten_result (fuel : nat) (zeroToTen : Z) :
  0 <= zeroToTen <= max_uint 256 -> (10 < fuel)%nat ->
  Unchecked.count_to_ten fuel zeroToTen = Done (Z.max zeroToTen 10) /\
  Unchecked.count_to_ten_unchecked fuel zeroToTen = Done (Z.max zeroToTen 10).
Proof.
  intros Hz Hfuel. apply UncheckedFacts.count_to_ten_both; lia.
Qed.

Lemma count_to_ten_result_witness :
  Unchecked.count_to_ten 11 0 = Done 10 /\
  Unchecked.count_to_ten_unchecked 11 0 = Done 10.
Proof.
  pose proof SolFacts.max_uint_256_large as Hlarge.
  apply (count_to_ten_result 11 0); lia.
Defined.

(** ** Summing an array *)

Module AddFacts.
Import SolFacts.

#[local] Arguments C.sum_list : simpl never.

Lemma sum_list_nonneg (arr : list Z) :
  Forall (fun x => 0 <= x) arr -> 0 <= C.sum_list arr.
Proof.
  induction 1 as [|x arr Hx _ IH]; unfold C.sum_list in *; simpl; lia.
Qed.

(** Inside the array the read never panics. *)
Lemma index_middle (pre : list Z) (x : Z) (suf : list Z) :
  index (pre ++ x :: suf) (Z.of_nat (List.length pre)) = Done x.
Proof.
  unfold index. rewrite length_app. simpl.
  destruct (Z.leb_spec 0 (Z.of_nat (List.length pre))); [|lia].
  destruct (Z.ltb_spec (Z.of_nat (List.length pre))
              (Z.of_nat (List.length pre + Datatypes.S (List.length suf)))); [|lia].
  simpl. rewrite Nat2Z.id, list_lookup_middle by reflexivity. reflexivity.
Qed.

Lemma index_outside (arr : list Z) (i : Z) :
  i < 0 \/ Z.of_nat (List.length arr) <= i -> index arr i = Revert OutOfBounds.
Proof.
  intros H. unfold index.
  destruct (Z.leb_spec 0 i); destruct (Z.ltb_spec i (Z.of_nat (List.length arr)));
    simpl; try reflexivity; lia.
Qed.

(** Summing the rest of the array from a running total: the total only
    grows, so an overflow anywhere is an overflow of the whole sum. *)
Lemma run_over_add (suf : list Z) :
  forall (pre : list Z) (acc : Z),
    Forall (fun x => 0 <= x) suf -> 0 <= acc <= max_uint 256 ->
    run_over (fun i sum => x ← index (pre ++ suf) i; checked_add 256 sum x)
      (seqZ (Z.of_nat (List.length pre)) (Z.of_nat (List.length suf))) acc =
    if acc + C.sum_list suf <=? max_uint 256
    then Done (acc + C.sum_list suf) else Revert Overflow.
Proof.
  induction suf as [|x suf IH]; intros pre acc Hsuf Hacc.
  - unfold C.sum_list. simpl.
    destruct (Z.leb_spec (acc + 0) (max_uint 256)); [f_equal; lia | lia].
  - inversion Hsuf as [|? ? Hx Hsuf']; subst.
    pose proof (sum_list_nonneg suf Hsuf') as Hnn.
    change (C.sum_list (x :: suf)) with (x + C.sum_list suf).
    rewrite seqZ_cons by (simpl; lia). cbn [run_over].
    rewrite index_middle. simpl.
    destruct (Z.leb_spec (acc + x) (max_uint 256)) as [Hle|Hgt].
    + rewrite checked_add_ok by exact Hle. simpl.
      replace (pre ++ x :: suf)%list with ((pre ++ [x]) ++ suf)%list
        by (rewrite <- app_assoc; reflexivity).
      replace (Z.succ (Z.of_nat (List.length pre)))
        with (Z.of_nat (List.length (pre ++ [x])))
        by (rewrite length_app; simpl; lia).
      replace (Z.pred (Z.of_nat (Datatypes.S (List.length suf))))
        with (Z.of_nat (List.length suf)) by lia.
      rewrite IH by (try assumption; lia).
      replace (acc + x + C.sum_list suf) with (acc + (x + C.sum_list suf)) by lia.
      reflexivity.
    + rewrite checked_add_overflow by exact Hgt. simpl.
      destruct (Z.leb_spec (acc + (x + C.sum_list suf)) (max_uint 256));
        [lia | reflexivity].
Qed.

Lemma add_spec (fuel : nat) (arr : list Z) :
  C.well_formed arr -> (List.length arr < fuel)%nat ->
  C.add fuel arr =
  if C.sum_list arr <=? max_uint 256 then Done (C.sum_list arr)
  else Revert Overflow.
Proof.
  intros [Helems Hlen] Hfuel. unfold C.add.
  pose proof max_uint_256_large as Hlarge.
  rewrite for_loop_run_over; try lia.
  - rewrite Z.sub_0_r.
    apply (run_over_add arr [] 0); [|lia].
    eapply Forall_impl; [exact Helems|]. simpl. intros x Hx. lia.
  - intros j Hj. apply checked_add_ok. lia.
Qed.

End AddFacts.

(** For an array of uint256 values and more fuel than its length, [add]
    returns the sum of the elements when that sum fits in a uint256 and
    reverts with the overflow panic when it does not; it never reads outside
    the array and never runs out of fuel. *)
Theorem add_sums_or_overflows (fuel : nat) (arr : list Z) :
  C.well_formed arr -> (List.length arr < fuel)%nat ->
  (C.sum_list arr <= max_uint 256 -> C.add fuel arr = Done (C.sum_list arr)) /\
  (max_uint 256 < C.sum_list arr -> C.add fuel arr = Revert Overflow) /\
  C.add fuel arr <> Revert OutOfBounds /\
  C.add fuel arr <> OutOfFuel.
Proof.
  intros Hwf Hfuel. rewrite (AddFacts.add_spec fuel arr Hwf Hfuel).
  destruct (Z.leb_spec (C.sum_list arr) (max_uint 256));
    repeat split; intros; try reflexivity; try discriminate; lia.
Qed.

Lemma add_sums_or_overflows_witness :
  C.add 4 [1; 2; 3] = Done 6 /\
  C.add 3 [max_uint 256; 1] = Revert Overflow.
Proof.
  pose proof SolFacts.max_uint_256_large as Hlarge.
  split.
  - apply (proj1 (add_sums_or_overflows 4 [1; 2; 3]
                    ltac:(split; [repeat constructor; lia | simpl; lia])
                    ltac:(simpl; lia))).
    unfold C.sum_list. simpl. lia.
  - apply (proj1 (proj2 (add_sums_or_overflows 3 [max_uint 256; 1]
                    ltac:(split; [repeat constructor; lia | simpl; lia])
                    ltac:(simpl; lia)))).
    unfold C.sum_list. simpl. lia.
Defined.

(** * More on the Info page *)



(** When the context's colorMode is not a string (it is missing, null or a
    boolean), the key read is "undefined", "null", "true" or "false", none
    of them in the table or on its prototype: the colour prop is undefined. *)
Theorem Info_nonstring_mode_undefined (ps : gmap string value) (amb : ambient)
    (ctx : context) :
  useColorMode amb = Some ctx ->
  (forall s, colorMode ctx <> PStr s) ->
  exists n, Info ps amb = Normal n /\ text_color n = Some VUndefined.
Proof.
  intros Hctx Hns.
  destruct (Info_returns ps amb ctx Hctx) as (n & Hn & Hc).
  exists n. split; [exact Hn|]. rewrite Hc.
  destruct (colorMode ctx) as [| |[]|s]; try reflexivity.
  destruct (Hns s eq_refl).
Qed.

Lemma Info_nonstring_mode_undefined_witness :
  exists n, Info ∅ {| useColorMode := Some {| colorMode := PUndefined |} |} = Normal n /\
    text_color n = Some VUndefined.
Proof.
  apply (Info_nonstring_mode_undefined ∅
           {| useColorMode := Some {| colorMode := PUndefined |} |}
           {| colorMode := PUndefined |} eq_refl).
  intros s. discriminate.
Defined.
